(** * Path-name resolution of the Weenix VFS layer (kernel/fs/namev.c)

    A shallow embedding of [lookup], [dir_namev], [open_namev],
    [lookup_name] and [lookup_dirpath], followed by the properties of the
    resolver that hold, or fail, on that code.

    Conventions of the embedding.
    - A [vnode_t *] is an [option nat]: [None] is the NULL pointer and
      [Some v] the address of vnode [v].
    - A C string is the [string] of the bytes that precede its terminator,
      so [strlen] is [String.length]; a [const char *] that may be NULL is an
      [option string].
    - A writable [char *] is the list of the bytes of the memory region that
      starts at the pointer.  The region may be longer than the capacity the
      caller announces, which makes stores beyond the capacity visible; a
      store outside the region is a memory fault.
    - [int] values are [Z]; [size_t] arithmetic that can wrap is written with
      [wrap32] (Weenix is a 32-bit kernel).
    - An output parameter ([vnode_t **result], [size_t *namelen], ...) is
      passed as the contents of the slot on entry and returned as its
      contents on exit.
    - The kernel state threaded through the calls holds the reference counts
      and a trace of the calls made to collaborators ([vref], [vput], the
      per-node operations) and of the entries into [lookup].
    - [kmalloc] is taken to succeed; the blocks it returns are values, and
      [kfree] is not recorded.
    - The string primitives of util/string.h are not part of namev.c.
      [strlen], [strcmp], [memcpy] and [memset] have their usual meaning.
      For [strncpy] two behaviours are in use when the source is shorter
      than the count, and the kernel says which one it has
      ([strncpy_pads]); every property below holds for both.
    - Loops take a fuel argument; a call that is still running when the fuel
      is spent gives [Timeout]. *)

From Stdlib Require Import ZArith String Ascii List Lia Bool.
From stdpp Require Import base gmap strings list.

Open Scope string_scope.
Open Scope Z_scope.

(** ** Outcomes of a call *)

(** A call returns, faults on an invalid memory access (a dereferenced NULL
    pointer, a call through a NULL function pointer, a store outside the
    modelled region), or is still running when the fuel of its loops is
    exhausted. *)
Inductive outcome (A : Type) : Type :=
| Ret (a : A)
| Fault
| Timeout.

Arguments Ret {A} a.
Arguments Fault {A}.
Arguments Timeout {A}.

Definition obind {A B : Type} (m : outcome A) (k : A -> outcome B) : outcome B :=
  match m with
  | Ret a => k a
  | Fault => Fault
  | Timeout => Timeout
  end.

#[global] Instance outcome_bind : MBind outcome :=
  fun A B k m => obind m k.

#[global] Instance outcome_ret : MRet outcome := fun A a => Ret a.

(** ** Kernel state *)

Inductive event : Type :=
| EvVref (v : nat)
| EvVput (v : nat)
| EvLookup (dir : option nat) (name : option string) (len : Z) (slot : option nat)
| EvOpLookup (d : nat) (name : string) (len : Z)
| EvOpCreate (d : nat) (name : option string) (len : Z)
| EvOpReaddir (d : nat) (offset : Z).

Record state : Type := mkState {
  vn_refcount : gmap nat Z;
  trace : list event
}.

Definition refcount (st : state) (v : nat) : Z :=
  default 0 (vn_refcount st !! v).

Definition log (e : event) (st : state) : state :=
  mkState (vn_refcount st) (trace st ++ [e]).

(** [vref(vn)] and [vput(vn)]: both dereference their argument. *)
Definition vref (st : state) (vn : option nat) : outcome state :=
  match vn with
  | None => Fault
  | Some v =>
      Ret (mkState (<[v := refcount st v + 1]> (vn_refcount st))
                   (trace st ++ [EvVref v]))
  end.

Definition vput (st : state) (vn : option nat) : outcome state :=
  match vn with
  | None => Fault
  | Some v =>
      Ret (mkState (<[v := refcount st v - 1]> (vn_refcount st))
                   (trace st ++ [EvVput v]))
  end.

(** ** Collaborators *)

Record dirent : Type := mkDirent { d_ino : Z; d_name : string }.

(** The operations of a vnode ([vn_ops]); a field is [None] when the
    function pointer is NULL.  [vop_lookup dir name len slot st] and
    [vop_create] receive the contents of [*result] and give the return code,
    the new contents of [*result] and the new state.  [vop_readdir dir
    offset st] gives the return code and the entry that the operation stores
    through its [struct dirent *] argument. *)
Record vnode_ops : Type := mkOps {
  vop_lookup : option (nat -> string -> Z -> option nat -> state -> Z * option nat * state);
  vop_create : option (nat -> option string -> Z -> option nat -> state -> Z * option nat * state);
  vop_readdir : option (nat -> Z -> state -> Z * dirent * state)
}.

(** What namev.c takes from the rest of the kernel: the globals
    [vfs_root_vn] and [curproc->p_cwd], the fields of a vnode, the constants
    of errno.h, fcntl.h and the configuration headers, and the behaviour of
    the kernel's [strncpy] on a source shorter than the count:
    [strncpy_pads] is [true] when it fills the rest of the count with
    terminators (ISO C), [false] when it stops after the terminator it has
    copied. *)
Record kernel : Type := mkKernel {
  vfs_root_vn : option nat;
  p_cwd : option nat;
  vn_ops : nat -> vnode_ops;
  vn_len : nat -> state -> Z;
  vn_vno : nat -> Z;
  ENOENT : Z;
  ENOTDIR : Z;
  EINVAL : Z;
  ERANGE : Z;
  O_CREAT : Z;
  STR_MAX : Z;
  strncpy_pads : bool
}.

(** ** [lookup] (namev.c, lines 28-47) *)

Section Resolver.

Variable K : kernel.

(** The contents of the caller's slot are returned second.  After
    [result = &dir] the stores of the rest of the function go to the local
    variable [dir], so the caller's slot keeps its contents. *)
Definition lookup (st : state) (dir : option nat) (name : option string)
    (len : Z) (slot : option nat) : outcome (Z * option nat * state) :=
  let st := log (EvLookup dir name len slot) st in
  match dir, slot, name with
  | Some d, Some r, Some nm =>
      let redirected := String.eqb nm "." in
      let target := if redirected then Some d else Some r in
      match vop_lookup (vn_ops K d) with
      | None => Ret (- ENOTDIR K, slot, st)
      | Some op =>
          let '(_, target', st1) := op d nm len target (log (EvOpLookup d nm len) st) in
          st2 ← match target' with
                | Some _ => vref st1 target'
                | None => Ret st1
                end;
          Ret (0, if redirected then slot else target', st2)
      end
  | _, _, _ => Ret (-1, slot, st)
  end.

(** ** [dir_namev] (namev.c, lines 68-136) *)

(** [pathname[i]]: the byte at index [i], the terminator at [strlen]. *)
Definition char_at (s : string) (i : Z) : ascii :=
  match String.get (Z.to_nat i) s with
  | Some c => c
  | None => Ascii.zero
  end.

Definition strlen (s : string) : Z := Z.of_nat (String.length s).

Definition is_slash (c : ascii) : bool := Ascii.eqb c "/"%char.

(** The contents of the three output slots of [dir_namev]. *)
Record namev_out : Type := mkOut {
  out_namelen : Z;
  out_name : option string;
  out_res_vnode : option nat
}.

(** Lines 77-89: the node the walk starts from.  The test on [base] is a
    separate [if], not an [else] branch of the test on [pathname[0]]. *)
Definition dir_namev_start (pathname : string) (base : option nat) : option nat :=
  let prev_v_node : option nat := None in
  let prev_v_node :=
    if is_slash (char_at pathname 0) then vfs_root_vn K else prev_v_node in
  let prev_v_node :=
    match base with
    | None => p_cwd K
    | Some _ => base
    end in
  prev_v_node.

(** Line 92: [start_index], the index of the first byte of the walk. *)
Definition start_index_of (pathname : string) : Z :=
  if is_slash (char_at pathname 0) then 1 else 0.

(** Lines 98-104: one test of the inner [while].  The body has no statement
    that changes [i]. *)
Inductive scan_step_result : Type :=
| ScanAgain (i : Z)
| ScanBreak (i end_index : Z)
| ScanDone (i : Z).

Definition scan_step (pathname : string) (i : Z) : scan_step_result :=
  if i <? strlen pathname then
    if is_slash (char_at pathname i) then ScanBreak i (i - 1)
    else ScanAgain i
  else ScanDone i.

(** The inner [while]; gives [i] and [end_index] at its exit. *)
Fixpoint scan (fuel : nat) (pathname : string) (i end_index : Z) : outcome (Z * Z) :=
  match fuel with
  | O => Timeout
  | S fuel' =>
      match scan_step pathname i with
      | ScanAgain i' => scan fuel' pathname i' end_index
      | ScanBreak i' e => Ret (i', e)
      | ScanDone i' => Ret (i', end_index)
      end
  end.

(** [strncpy(next_name, pathname + start, n); next_name[n] = 0], read back
    as a C string. *)
Definition component (pathname : string) (start n : Z) : string :=
  String.substring (Z.to_nat start) (Z.to_nat n) pathname.

(** The [while(1)] of lines 96-134. *)
Fixpoint dir_namev_loop (fuel : nat) (st : state) (pathname : string)
    (outs : namev_out) (prev_v_node next_v_node : option nat)
    (start_index end_index terminate : Z) : outcome (Z * namev_out * state) :=
  match fuel with
  | O => Timeout
  | S fuel' =>
      '(i, end_index) ← scan (S fuel') pathname start_index end_index;
      if i =? strlen pathname then
        (* end_index and terminate are assigned, then [break] leaves while(1) *)
        Ret (0, outs, st)
      else
        let next_name := component pathname start_index (end_index - start_index + 1) in
        if terminate =? 1 then
          Ret (0, mkOut (strlen next_name) (Some next_name) prev_v_node, st)
        else
          '(rc, next_v_node, st) ←
            lookup st prev_v_node (Some next_name) (strlen next_name) next_v_node;
          if negb (rc =? 0) then Ret (-1, outs, st)
          else
            st ← vput st prev_v_node;
            dir_namev_loop fuel' st pathname outs next_v_node next_v_node
                           (end_index + 2) end_index terminate
  end.

Definition dir_namev (fuel : nat) (st : state) (pathname : option string)
    (outs : namev_out) (base : option nat) : outcome (Z * namev_out * state) :=
  match pathname with
  | None => Ret (-1, outs, st)
  | Some p =>
      let prev_v_node := dir_namev_start p base in
      let next_v_node : option nat := None in
      st ← vref st prev_v_node;
      let start_index := start_index_of p in
      dir_namev_loop fuel st p outs prev_v_node next_v_node start_index 0 0
  end.

(** ** [open_namev] (namev.c, lines 146-174) *)

(** [uninit_namelen] and [uninit_name] are the indeterminate contents of the
    locals [namelen] and [name], which are declared without initialiser.
    The contents of [*res_vnode] are returned second. *)
Definition open_namev (fuel : nat) (st : state) (pathname : option string)
    (flag : Z) (res_vnode : option nat) (base : option nat)
    (uninit_namelen : Z) (uninit_name : option string)
    : outcome (Z * option nat * state) :=
  match pathname with
  | None => Ret (-1, res_vnode, st)
  | Some _ =>
      let dir_vnode : option nat := None in
      '(rc, outs, st) ←
        dir_namev fuel st pathname (mkOut uninit_namelen uninit_name dir_vnode) base;
      if negb (rc =? 0) then Ret (-1, res_vnode, st)
      else
        let namelen := out_namelen outs in
        let name := out_name outs in
        let dir_vnode := out_res_vnode outs in
        let result : option nat := None in
        '(rc, result, st) ← lookup st dir_vnode name namelen result;
        if negb (rc =? 0) then Ret (-1, res_vnode, st)
        else
          if (flag =? O_CREAT K) && bool_decide (result = None) then
            match dir_vnode with
            | None => Fault
            | Some d =>
                match vop_create (vn_ops K d) with
                | None => Fault
                | Some op =>
                    let '(rc, result, st) :=
                      op d name namelen result (log (EvOpCreate d name namelen) st) in
                    if rc =? -1 then Ret (-1, res_vnode, st)
                    else Ret (0, res_vnode, st)
                end
            end
          else Ret (0, res_vnode, st)
  end.

(** ** Byte buffers *)

Definition NUL : ascii := Ascii.zero.

Definition wrap32 (x : Z) : Z := x mod 2 ^ 32.

(** [buf[i] = c]. *)
Definition store (buf : list ascii) (i : Z) (c : ascii) : outcome (list ascii) :=
  if (0 <=? i) && (i <? Z.of_nat (length buf)) then Ret (<[Z.to_nat i := c]> buf)
  else Fault.

(** [strncpy(dst, src, n)].  The function is defined in util/string.c,
    outside namev.c.  It stores the first [n] bytes of [src] when [src] has
    at least [n] bytes.  When [src] is shorter it stores the bytes of [src]
    and then either terminators up to [n] bytes in all ([strncpy_pads]) or
    one terminator. *)
Definition strncpy (dst : list ascii) (src : string) (n : Z) : outcome (list ascii) :=
  let stored := if strncpy_pads K then n else Z.min n (strlen src + 1) in
  if Z.of_nat (length dst) <? stored then Fault
  else
    let k := Z.to_nat stored in
    Ret (take k (list_ascii_of_string src ++ replicate k NUL) ++ drop k dst)%list.

(** [memcpy(dst + off, src, n)], for [n] at most [strlen(src) + 1]. *)
Definition memcpy (dst : list ascii) (off : Z) (src : string) (n : Z) : outcome (list ascii) :=
  if Z.of_nat (length dst) <? off + n then Fault
  else
    Ret (take (Z.to_nat off) dst
         ++ take (Z.to_nat n) (list_ascii_of_string src ++ [NUL])
         ++ drop (Z.to_nat (off + n)) dst)%list.

(** The C string held by a region: the bytes before the first terminator. *)
Fixpoint cstring (l : list ascii) : string :=
  match l with
  | [] => EmptyString
  | c :: l' => if Ascii.eqb c NUL then EmptyString else String c (cstring l')
  end.

(** ** [lookup_name] (namev.c, lines 186-215) *)

(** Lines 200-209: the entry was found and is called [name]. *)
Definition lookup_name_found (buf : list ascii) (size : Z) (name : string)
    : outcome (Z * list ascii) :=
  let name_length := strlen name in
  if size <? wrap32 (name_length + 1) then
    buf ← strncpy buf name (wrap32 (size - 1));
    buf ← store buf size NUL;
    Ret (- ERANGE K, buf)
  else
    buf ← strncpy buf name name_length;
    Ret (0, buf).

(** The [while] of lines 194-212.  [dent] is what the pointer [dent] points
    to, [None] when the pointer is NULL; the pointer itself is never
    assigned in the loop.  [readdir] stores the entry through it and the
    next statement reads [dent->d_ino]. *)
Fixpoint lookup_name_loop (fuel : nat) (st : state) (dir entry : nat)
    (buf : list ascii) (size offset : Z) (dent : option dirent)
    : outcome (Z * list ascii * state) :=
  match fuel with
  | O => Timeout
  | S fuel' =>
      if offset =? vn_len K dir st then Ret (- ENOENT K, buf, st)
      else
        match vop_readdir (vn_ops K dir) with
        | None => Fault
        | Some op =>
            let '(rc, de, st) := op dir offset (log (EvOpReaddir dir offset) st) in
            let offset := rc in
            match dent with
            | None => Fault
            | Some _ =>
                if d_ino de =? vn_vno K entry then
                  '(rc, buf) ← lookup_name_found buf size (d_name de);
                  Ret (rc, buf, st)
                else lookup_name_loop fuel' st dir entry buf size offset (Some de)
            end
        end
  end.

(** [lookup_name] with the initial value of the local [dent] as a
    parameter. *)
Definition lookup_name_with (dent : option dirent) (fuel : nat) (st : state)
    (dir entry : option nat) (buf : list ascii) (size : Z)
    : outcome (Z * list ascii * state) :=
  match dir, entry with
  | Some d, Some e =>
      let offset := 0 in
      lookup_name_loop fuel st d e buf size offset dent
  | _, _ => Ret (-1, buf, st)
  end.

(** Line 193: [struct dirent* dent = NULL]. *)
Definition lookup_name : nat -> state -> option nat -> option nat ->
    list ascii -> Z -> outcome (Z * list ascii * state) :=
  lookup_name_with None.

(** ** [lookup_dirpath] (namev.c, lines 233-300) *)

(** The [while] of lines 250-265.  [names] is the list [names_list], front
    first; [None] is the [return -1] of line 254. *)
Fixpoint lookup_dirpath_walk (fuel : nat) (st : state)
    (up_vnode low_vnode : option nat) (names : list string) (total_length : Z)
    : outcome (option (list string * Z) * state) :=
  match fuel with
  | O => Timeout
  | S fuel' =>
      if bool_decide (up_vnode = low_vnode) then Ret (Some (names, total_length), st)
      else
        let namebuf := replicate (Z.to_nat (STR_MAX K)) NUL in
        '(rc, rest, st) ←
          lookup_name (S fuel') st up_vnode low_vnode (drop 1 namebuf)
                      (wrap32 (STR_MAX K - 1));
        if negb (rc =? 0) then Ret (None, st)
        else
          namebuf ← store (take 1 namebuf ++ rest)%list 0 "/"%char;
          let total_length := wrap32 (total_length + strlen (cstring namebuf)) in
          let names := cstring namebuf :: names in
          let low_vnode := up_vnode in
          '(_, up_vnode, st) ← lookup st low_vnode (Some "..") 3 up_vnode;
          lookup_dirpath_walk fuel' st up_vnode low_vnode names total_length
  end.

(** Lines 276-288: one segment copied into [buf]. *)
Definition copy_segment (osize offset : Z) (buf : list ascii) (name : string)
    : outcome (Z * list ascii) :=
  if offset <? wrap32 (osize - 1) then
    let required_length := strlen name in
    let remaining_length := wrap32 (osize - offset) in
    if wrap32 (remaining_length - 1) >=? required_length then
      buf ← memcpy buf offset name required_length;
      Ret (wrap32 (offset + required_length), buf)
    else
      buf ← memcpy buf offset name (wrap32 (remaining_length - 1));
      buf ← store buf (wrap32 (osize - 1)) NUL;
      Ret (wrap32 (osize - 1), buf)
  else Ret (offset, buf).

(** The iteration of lines 274-294 over [names_list]. *)
Fixpoint copy_segments (osize offset : Z) (buf : list ascii) (names : list string)
    : outcome (Z * list ascii) :=
  match names with
  | [] => Ret (offset, buf)
  | name :: names' =>
      '(offset, buf) ← copy_segment osize offset buf name;
      copy_segments osize offset buf names'
  end.

(** Lines 266-299: what follows the walk. *)
Definition lookup_dirpath_finish (osize : Z) (b : list ascii)
    (names : list string) (total_length : Z) : outcome (Z * list ascii) :=
  let total_length := wrap32 (total_length + 1) in
  if total_length >? osize then Ret (- ERANGE K, b)
  else
    '(offset, b) ← copy_segments osize 0 b names;
    b ← (if offset <? wrap32 (osize - 1) then store b (offset + 1) NUL
         else Ret b);
    Ret (0, b).

Definition lookup_dirpath (fuel : nat) (st : state) (dir : option nat)
    (buf : option (list ascii)) (osize : Z)
    : outcome (Z * option (list ascii) * state) :=
  match dir with
  | None => Ret (- ENOENT K, buf, st)
  | Some _ =>
      match buf with
      | None => Ret (- EINVAL K, buf, st)
      | Some b =>
          if osize =? 0 then Ret (- EINVAL K, buf, st)
          else
            let up_vnode : option nat := None in
            let low_vnode := dir in
            '(_, up_vnode, st) ← lookup st dir (Some "..") 3 up_vnode;
            '(walked, st) ← lookup_dirpath_walk fuel st up_vnode low_vnode [] 0;
            match walked with
            | None => Ret (-1, buf, st)
            | Some (names, total_length) =>
                '(rc, b) ← lookup_dirpath_finish osize b names total_length;
                Ret (rc, Some b, st)
            end
      end
  end.

End Resolver.

(** ** A small file system for the scenarios *)

(** The call returned to its caller. *)
Definition returned {A : Type} (o : outcome A) : bool :=
  match o with
  | Ret _ => true
  | _ => false
  end.

(** Directory contents by vnode: the root (vnode 1) holds [bin] (vnode 2)
    and [abc] (vnode 5); [bin] holds [ls] (vnode 3).  Every directory lists
    itself under "." and its parent under "..". *)
Definition demo_dir (d : nat) : list (string * nat) :=
  match d with
  | 1%nat => [(".", 1%nat); ("..", 1%nat); ("bin", 2%nat); ("abc", 5%nat)]
  | 2%nat => [(".", 2%nat); ("..", 1%nat); ("ls", 3%nat)]
  | _ => []
  end.

Fixpoint demo_find (nm : string) (l : list (string * nat)) : option nat :=
  match l with
  | [] => None
  | (n, v) :: l' => if String.eqb n nm then Some v else demo_find nm l'
  end.

Definition demo_lookup (d : nat) (nm : string) (len : Z) (slot : option nat)
    (st : state) : Z * option nat * state :=
  match demo_find nm (demo_dir d) with
  | Some v => (0, Some v, st)
  | None => (-2, slot, st)
  end.

Definition demo_readdir (d : nat) (offset : Z) (st : state) : Z * dirent * state :=
  match demo_dir d !! Z.to_nat offset with
  | Some (n, v) => (offset + 1, mkDirent (Z.of_nat v) n, st)
  | None => (0, mkDirent 0 "", st)
  end.

Definition demo_ops (d : nat) : vnode_ops :=
  match demo_dir d with
  | [] => mkOps None None None
  | _ => mkOps (Some demo_lookup) None (Some demo_readdir)
  end.

(** Root and working directory differ: the root is vnode 1, the working
    directory is [bin].  The constants have the values of the Weenix
    headers; [strncpy] stops after the terminator. *)
Definition demo : kernel :=
  mkKernel (Some 1%nat) (Some 2%nat) demo_ops
           (fun d _ => Z.of_nat (length (demo_dir d)))
           (fun v => Z.of_nat v)
           2 20 22 34 256 32 false.

Definition st0 : state := mkState ∅ [].

Definition out0 : namev_out := mkOut 0 None None.

(** A region of [n] bytes that all hold the letter X. *)
Definition xs (n : nat) : list ascii := replicate n "X"%char.

(** The events [lookup], [dir_namev], [open_namev] and [lookup_dirpath]
    record themselves on the paths that call no vnode operation and release
    nothing: a [vref] and the entries into [lookup]. *)
Definition quiet_event (e : event) : bool :=
  match e with
  | EvVref _ | EvLookup _ _ _ _ => true
  | _ => false
  end.

(** The sum of the lengths of the segments of a list. *)
Definition segments_length (names : list string) : Z :=
  foldr (fun name acc => strlen name + acc) 0 names.

(** The bytes of the segments of a list, in order. *)
Definition segments_bytes (names : list string) : list ascii :=
  foldr (fun name acc => (list_ascii_of_string name ++ acc)%list) [] names.

(** * Properties *)

(** ** Auxiliary facts *)

Lemma lookup_null_slot (K : kernel) (st : state) (dir : option nat)
    (name : option string) (len : Z) :
  lookup K st dir name len None
  = Ret (-1, None, log (EvLookup dir name len None) st).
Proof.
  unfold lookup. destruct dir; reflexivity.
Qed.

Lemma lookup_null_dir (K : kernel) (st : state) (name : option string)
    (len : Z) (slot : option nat) :
  lookup K st None name len slot
  = Ret (-1, slot, log (EvLookup None name len slot) st).
Proof. reflexivity. Qed.

Lemma scan_stuck (pathname : string) (i : Z) :
  scan_step pathname i = ScanAgain i ->
  forall (fuel : nat) (end_index : Z), scan fuel pathname i end_index = Timeout.
Proof.
  intros Hstep fuel. induction fuel as [|fuel IH]; intros e; simpl.
  - reflexivity.
  - rewrite Hstep. apply IH.
Qed.

Lemma scan_step_again (pathname : string) (i j : Z) :
  scan_step pathname i = ScanAgain j -> j = i.
Proof.
  unfold scan_step. destruct (i <? strlen pathname); [|discriminate].
  destruct (is_slash (char_at pathname i)); [discriminate|].
  intros H; injection H as <-. reflexivity.
Qed.

Lemma component_empty (pathname : string) (start : Z) :
  component pathname start 0 = "".
Proof.
  unfold component. simpl. generalize (Z.to_nat start) as n.
  intros n. revert pathname.
  induction n as [|n IH]; intros [|c s]; simpl; try reflexivity. apply IH.
Qed.

Lemma slash_first_length (pathname : string) :
  is_slash (char_at pathname 0) = true -> 1 <= strlen pathname.
Proof.
  destruct pathname as [|c s]; unfold strlen; simpl.
  - discriminate.
  - intros _. lia.
Qed.

(** One turn of the walker decides every call: the scan either stops at the
    terminator (return 0, no output stored), stops on a separator at
    [start_index] (an empty component is looked up with a NULL slot, return
    -1), or tests the same byte for ever. *)
Lemma dir_namev_loop_first (K : kernel) (fuel : nat) (st : state)
    (pathname : string) (outs : namev_out) (prev : option nat)
    (start e : Z) :
  start <= strlen pathname ->
  dir_namev_loop K fuel st pathname outs prev None start e 0
  = match fuel with
    | O => Timeout
    | S _ =>
        match scan_step pathname start with
        | ScanAgain _ => Timeout
        | ScanBreak _ _ =>
            Ret (-1, outs, log (EvLookup prev (Some "") 0 None) st)
        | ScanDone _ => Ret (0, outs, st)
        end
    end.
Proof.
  intros Hle. destruct fuel as [|fuel]; [reflexivity|].
  cbn [dir_namev_loop].
  destruct (scan_step pathname start) as [j|j e'|j] eqn:Hstep.
  - apply scan_step_again in Hstep as Hj. subst j.
    rewrite (scan_stuck _ _ Hstep). reflexivity.
  - cbn [scan]. rewrite Hstep. cbn.
    unfold scan_step in Hstep.
    destruct (start <? strlen pathname) eqn:Hlt; [|discriminate].
    destruct (is_slash (char_at pathname start)); [|discriminate].
    injection Hstep as <- <-.
    apply Z.ltb_lt in Hlt.
    destruct (start =? strlen pathname) eqn:Heq; [apply Z.eqb_eq in Heq; lia|].
    replace (start - 1 - start + 1) with 0 by lia.
    rewrite component_empty. cbn.
    rewrite lookup_null_slot. reflexivity.
  - cbn [scan]. rewrite Hstep. cbn.
    unfold scan_step in Hstep.
    destruct (start <? strlen pathname) eqn:Hlt.
    + destruct (is_slash (char_at pathname start)); discriminate.
    + injection Hstep as <-. apply Z.ltb_ge in Hlt.
      replace (start =? strlen pathname) with true
        by (symmetry; apply Z.eqb_eq; lia).
      reflexivity.
Qed.

Lemma dir_namev_unfold (K : kernel) (fuel : nat) (st : state)
    (pathname : string) (outs : namev_out) (base : option nat) :
  dir_namev K fuel st (Some pathname) outs base
  = match dir_namev_start K pathname base with
    | None => Fault
    | Some v =>
        match fuel with
        | O => Timeout
        | S _ =>
            match scan_step pathname (start_index_of pathname) with
            | ScanAgain _ => Timeout
            | ScanBreak _ _ =>
                Ret (-1, outs,
                     log (EvLookup (Some v) (Some "") 0 None)
                         (mkState (<[v := refcount st v + 1]> (vn_refcount st))
                                  (trace st ++ [EvVref v])))
            | ScanDone _ =>
                Ret (0, outs,
                     mkState (<[v := refcount st v + 1]> (vn_refcount st))
                             (trace st ++ [EvVref v]))
            end
        end
    end.
Proof.
  unfold dir_namev.
  destruct (dir_namev_start K pathname base) as [v|]; [|reflexivity].
  cbn.
  rewrite dir_namev_loop_first; [reflexivity|].
  unfold start_index_of.
  destruct (is_slash (char_at pathname 0)) eqn:Hs.
  - apply slash_first_length. exact Hs.
  - unfold strlen. lia.
Qed.

Lemma dir_namev_stuck (K : kernel) (fuel : nat) (st : state)
    (pathname : string) (outs : namev_out) (base : option nat) :
  (start_index_of pathname <? strlen pathname) = true ->
  is_slash (char_at pathname (start_index_of pathname)) = false ->
  returned (dir_namev K fuel st (Some pathname) outs base) = false.
Proof.
  intros Hlt Hns. rewrite dir_namev_unfold.
  destruct (dir_namev_start K pathname base); [|reflexivity].
  destruct fuel; [reflexivity|].
  unfold scan_step. rewrite Hlt, Hns. reflexivity.
Qed.

Lemma dir_namev_never_stores (K : kernel) (fuel : nat) (st : state)
    (pathname : option string) (outs : namev_out) (base : option nat)
    (rc : Z) (outs' : namev_out) (st' : state) :
  dir_namev K fuel st pathname outs base = Ret (rc, outs', st') ->
  outs' = outs /\ (rc = 0 \/ rc = -1).
Proof.
  destruct pathname as [p|].
  - rewrite dir_namev_unfold.
    destruct (dir_namev_start K p base); [|discriminate].
    destruct fuel; [discriminate|].
    destruct (scan_step p (start_index_of p)); [discriminate| |];
      intros H; injection H as <- <- _; auto.
  - cbn. intros H; injection H as <- <- _. auto.
Qed.

Lemma open_namev_returns (K : kernel) (fuel : nat) (st : state)
    (pathname : option string) (flag : Z) (res base : option nat)
    (ul : Z) (un : option string) (rc : Z) (res' : option nat) (st' : state) :
  open_namev K fuel st pathname flag res base ul un = Ret (rc, res', st') ->
  rc = -1 /\ res' = res.
Proof.
  unfold open_namev. destruct pathname as [p|].
  - destruct (dir_namev K fuel st (Some p) (mkOut ul un None) base)
      as [[[rc1 outs1] st1]| |] eqn:Hd; cbn; try discriminate.
    apply dir_namev_never_stores in Hd as [-> Hrc].
    destruct Hrc as [-> | ->]; cbn.
    + intros H; injection H as <- <- _. auto.
    + intros H; injection H as <- <- _. auto.
  - intros H; injection H as <- <- _. auto.
Qed.

Lemma lookup_name_null_dent (K : kernel) (fuel : nat) (st : state)
    (d e : nat) (buf : list ascii) (size : Z) :
  lookup_name K (S fuel) st (Some d) (Some e) buf size
  = if 0 =? vn_len K d st then Ret (- ENOENT K, buf, st) else Fault.
Proof.
  unfold lookup_name, lookup_name_with. cbn [lookup_name_loop].
  destruct (0 =? vn_len K d st); [reflexivity|].
  destruct (vop_readdir (vn_ops K d)) as [op|]; [|reflexivity].
  destruct (op d 0 _) as [[rc de] st1]. reflexivity.
Qed.

Lemma lookup_dirpath_unfold (K : kernel) (fuel : nat) (st : state)
    (d : nat) (b : list ascii) (osize : Z) :
  osize <> 0 ->
  lookup_dirpath K (S fuel) st (Some d) (Some b) osize
  = Ret (-1, Some b, log (EvLookup (Some d) (Some "..") 3 None) st).
Proof.
  intros Hsz. unfold lookup_dirpath.
  apply Z.eqb_neq in Hsz. rewrite Hsz.
  rewrite lookup_null_slot. cbn.
  rewrite bool_decide_eq_false_2 by discriminate.
  reflexivity.
Qed.

Lemma refcount_insert (m : gmap nat Z) (tr : list event) (v : nat) (x : Z) :
  refcount (mkState (<[v := x]> m) tr) v = x.
Proof.
  unfold refcount. cbn. rewrite lookup_insert_eq. reflexivity.
Qed.

(** ** The single-component resolver *)

(** C10.  A call of [lookup] whose result slot holds NULL on entry returns
    the error -1 at once: the answer is the same for every kernel, so for
    every capability set of the directory, no reference count changes and
    nothing but the entry into [lookup] is recorded.  The calls of [lookup]
    made by [dir_namev] and by [lookup_dirpath] all pass a slot that holds
    NULL. *)
Theorem lookup_null_slot_rejected :
  (forall (K : kernel) (st : state) (dir : option nat) (name : option string)
          (len : Z),
      exists st',
        lookup K st dir name len None = Ret (-1, None, st')
        /\ vn_refcount st' = vn_refcount st
        /\ trace st' = (trace st ++ [EvLookup dir name len None])%list)
  /\ (forall (K : kernel) (fuel : nat) (st : state) (pathname : option string)
             (outs : namev_out) (base : option nat) (rc : Z)
             (outs' : namev_out) (st' : state),
        dir_namev K fuel st pathname outs base = Ret (rc, outs', st') ->
        exists evs,
          trace st' = (trace st ++ evs)%list
          /\ forall d n l s, EvLookup d n l s ∈ evs -> s = None)
  /\ (forall (K : kernel) (fuel : nat) (st : state) (dir : option nat)
             (buf : option (list ascii)) (osize rc : Z)
             (buf' : option (list ascii)) (st' : state),
        lookup_dirpath K fuel st dir buf osize = Ret (rc, buf', st') ->
        exists evs,
          trace st' = (trace st ++ evs)%list
          /\ forall d n l s, EvLookup d n l s ∈ evs -> s = None).
Proof.
  split; [|split].
  - intros. eexists. rewrite lookup_null_slot. split; [reflexivity|]. split; reflexivity.
  - intros K fuel st [p|] outs base rc outs' st'.
    + rewrite dir_namev_unfold.
      destruct (dir_namev_start K p base) as [v|]; [|discriminate].
      destruct fuel; [discriminate|].
      destruct (scan_step p (start_index_of p)); [discriminate| |];
        intros H; injection H as _ _ <-; cbn.
      * exists [EvVref v; EvLookup (Some v) (Some "") 0 None].
        split; [rewrite <- app_assoc; reflexivity|].
        intros d n l s Hin. apply elem_of_cons in Hin as [Hin|Hin]; [discriminate|].
        apply list_elem_of_singleton in Hin. injection Hin as _ _ _ ->. reflexivity.
      * exists [EvVref v]. split; [reflexivity|].
        intros d n l s Hin. apply list_elem_of_singleton in Hin. discriminate.
    + cbn. intros H; injection H as _ _ <-. exists []. split.
      * rewrite app_nil_r. reflexivity.
      * intros d n l s Hin. inversion Hin.
  - intros K fuel st dir buf osize rc buf' st'.
    assert (Hnil : forall st1 : state, st1 = st ->
              exists evs, trace st1 = (trace st ++ evs)%list
                /\ forall d n l s, EvLookup d n l s ∈ evs -> s = None).
    { intros st1 ->. exists []. split; [rewrite app_nil_r; reflexivity|].
      intros d n l s Hin. inversion Hin. }
    destruct dir as [d|]; [|cbn; intros H; injection H as _ _ <-; auto].
    destruct buf as [b|]; [|cbn; intros H; injection H as _ _ <-; auto].
    destruct (Z.eq_dec osize 0) as [->|Hsz];
      [cbn; intros H; injection H as _ _ <-; auto|].
    destruct fuel as [|fuel].
    + unfold lookup_dirpath. apply Z.eqb_neq in Hsz. rewrite Hsz.
      rewrite lookup_null_slot. cbn. discriminate.
    + rewrite lookup_dirpath_unfold by exact Hsz.
      intros H; injection H as _ _ <-. cbn.
      exists [EvLookup (Some d) (Some "..") 3 None]. split; [reflexivity|].
      intros d' n l s Hin. apply list_elem_of_singleton in Hin.
      injection Hin as _ _ _ ->. reflexivity.
Qed.

Lemma lookup_null_slot_rejected_witness :
  exists evs,
    [EvVref 2; EvLookup (Some 2%nat) (Some "") 0 None] = ([] ++ evs)%list
    /\ forall d n l s, EvLookup d n l s ∈ evs -> s = None.
Proof.
  apply (proj1 (proj2 lookup_null_slot_rejected)
           demo 1%nat st0 (Some "//") out0 None (-1) out0
           (mkState (<[2%nat := 1]> ∅)
                    [EvVref 2; EvLookup (Some 2%nat) (Some "") 0 None])).
  vm_compute. reflexivity.
Defined.

(** C7.  On the directory [bin] of the demonstration tree, with a slot that
    holds another vnode, [lookup] of "." returns 0, calls the lookup
    operation of [bin] and leaves the slot as it was: the directory is not
    stored in the slot.  On a node without lookup operation the component
    "." is refused with -ENOTDIR. *)
Theorem lookup_dot_delegates_keeps_slot :
  lookup demo st0 (Some 2%nat) (Some ".") 1 (Some 3%nat)
  = Ret (0, Some 3%nat,
         mkState (<[2%nat := 1]> ∅)
                 [EvLookup (Some 2%nat) (Some ".") 1 (Some 3%nat);
                  EvOpLookup 2 "." 1; EvVref 2])
  /\ lookup demo st0 (Some 3%nat) (Some ".") 1 (Some 3%nat)
     = Ret (-20, Some 3%nat,
            mkState ∅ [EvLookup (Some 3%nat) (Some ".") 1 (Some 3%nat)]).
Proof.
  split; vm_compute; reflexivity.
Qed.

(** For every kernel, [lookup] of "." hands the caller's slot back
    unchanged. *)
Lemma lookup_dot_slot_unchanged (K : kernel) (st : state) (d r : nat) (len : Z)
    (rc : Z) (slot' : option nat) (st' : state) :
  lookup K st (Some d) (Some ".") len (Some r) = Ret (rc, slot', st') ->
  slot' = Some r.
Proof.
  unfold lookup. cbn.
  destruct (vop_lookup (vn_ops K d)) as [op|].
  - destruct (op d "." len (Some d) _) as [[rc1 t] st1].
    destruct t as [t|]; cbn; intros H; injection H as _ <- _; reflexivity.
  - intros H; injection H as _ <- _. reflexivity.
Qed.

(** ** The directory-path walker *)

(** C3.  The node [dir_namev] starts from does not depend on the pathname:
    it is [base] when [base] is given and the working directory otherwise,
    also for a pathname that starts with the separator.  On the
    demonstration kernel, whose root is vnode 1 and whose working directory
    is vnode 2, the walk of "/" takes its reference on vnode 2 when [base]
    is NULL and on vnode 5 when [base] is vnode 5; the root is never
    referenced. *)
Theorem dir_namev_start_ignores_root :
  (forall (K : kernel) (pathname : string) (base : option nat),
      dir_namev_start K pathname base
      = match base with
        | None => p_cwd K
        | Some _ => base
        end)
  /\ dir_namev_start demo "/bin/ls" None = Some 2%nat
  /\ vfs_root_vn demo = Some 1%nat
  /\ dir_namev demo 1 st0 (Some "/") out0 None
     = Ret (0, out0, mkState (<[2%nat := 1]> ∅) [EvVref 2])
  /\ dir_namev demo 1 st0 (Some "/") out0 (Some 5%nat)
     = Ret (0, out0, mkState (<[5%nat := 1]> ∅) [EvVref 5]).
Proof.
  split; [|repeat split; vm_compute; reflexivity].
  intros K pathname base. unfold dir_namev_start.
  destruct base; reflexivity.
Qed.

(** C2.  On the demonstration tree (root, [bin] in the root, [ls] in [bin])
    the call [dir_namev("/bin/ls", ...)] does not return: the scan tests
    the byte at index 1 again and again, whatever the fuel, the kernel, the
    state and the base. *)
Theorem dir_namev_bin_ls_never_returns :
  demo_find "bin" (demo_dir 1) = Some 2%nat
  /\ demo_find "ls" (demo_dir 2) = Some 3%nat
  /\ scan_step "/bin/ls" 1 = ScanAgain 1
  /\ (forall (fuel : nat) (st : state) (outs : namev_out),
        dir_namev demo fuel st (Some "/bin/ls") outs None = Timeout)
  /\ (forall (K : kernel) (fuel : nat) (st : state) (outs : namev_out)
             (base : option nat),
        returned (dir_namev K fuel st (Some "/bin/ls") outs base) = false).
Proof.
  repeat split.
  - intros fuel st outs. rewrite dir_namev_unfold. cbn.
    destruct fuel; reflexivity.
  - intros. apply dir_namev_stuck; reflexivity.
Qed.

(** C9.  When the first byte of the walk (index 1 after a leading separator,
    index 0 otherwise) exists and is not a separator, the scan of
    [dir_namev] tests that same byte again, and the call does not return
    with any amount of fuel. *)
Theorem dir_namev_scan_makes_no_progress (K : kernel) (fuel : nat) (st : state)
    (pathname : string) (outs : namev_out) (base : option nat) :
  (start_index_of pathname <? strlen pathname) = true ->
  is_slash (char_at pathname (start_index_of pathname)) = false ->
  scan_step pathname (start_index_of pathname)
  = ScanAgain (start_index_of pathname)
  /\ returned (dir_namev K fuel st (Some pathname) outs base) = false.
Proof.
  intros Hlt Hns. split.
  - unfold scan_step. rewrite Hlt, Hns. reflexivity.
  - apply dir_namev_stuck; assumption.
Qed.

Lemma dir_namev_scan_makes_no_progress_witness :
  scan_step "a" (start_index_of "a") = ScanAgain (start_index_of "a")
  /\ returned (dir_namev demo 1000 st0 (Some "a") out0 None) = false.
Proof.
  apply (dir_namev_scan_makes_no_progress demo 1000 st0 "a" out0 None);
    reflexivity.
Defined.

(** The same on a pathname of several components. *)
Example dir_namev_two_components_stuck (K : kernel) (fuel : nat) (st : state)
    (outs : namev_out) (base : option nat) :
  returned (dir_namev K fuel st (Some "bin/ls") outs base) = false.
Proof. apply dir_namev_stuck; reflexivity. Qed.

(** C1.  [dir_namev] on "//" with base [b]: the lookup of the empty
    component fails, the call returns -1 with no output stored, and the
    reference taken on [b] is still held: one [vref], no [vput].
    [open_namev] on "/" with base [b] returns -1 with [*res_vnode] as it
    was, and the reference its walker took on [b] is still held. *)
Theorem namev_leaks_start_reference :
  (forall (K : kernel) (fuel : nat) (st : state) (outs : namev_out) (b : nat),
      exists st',
        dir_namev K (S fuel) st (Some "//") outs (Some b) = Ret (-1, outs, st')
        /\ refcount st' b = refcount st b + 1
        /\ trace st'
           = (trace st ++ [EvVref b; EvLookup (Some b) (Some "") 0 None])%list)
  /\ (forall (K : kernel) (fuel : nat) (st : state) (flag : Z)
             (res : option nat) (b : nat) (ul : Z) (un : option string),
        exists st',
          open_namev K (S fuel) st (Some "/") flag res (Some b) ul un
          = Ret (-1, res, st')
          /\ refcount st' b = refcount st b + 1
          /\ trace st' = (trace st ++ [EvVref b; EvLookup None un ul None])%list).
Proof.
  split.
  - intros. eexists. split; [|split].
    + rewrite dir_namev_unfold. reflexivity.
    + cbn. apply refcount_insert.
    + cbn. rewrite <- app_assoc. reflexivity.
  - intros. eexists. split; [|split].
    + unfold open_namev. rewrite dir_namev_unfold. cbn. reflexivity.
    + cbn. apply refcount_insert.
    + cbn. rewrite <- app_assoc. reflexivity.
Qed.

(** ** The path opener *)

(** C4.  Whatever the kernel and the arguments, a call of [open_namev] that
    returns gives -1 and leaves [*res_vnode] as it was on entry: no call
    succeeds and no node is handed to the caller. *)
Theorem open_namev_never_succeeds (K : kernel) (fuel : nat) (st : state)
    (pathname : option string) (flag : Z) (res base : option nat)
    (ul : Z) (un : option string) (rc : Z) (res' : option nat) (st' : state) :
  open_namev K fuel st pathname flag res base ul un = Ret (rc, res', st') ->
  rc <> 0 /\ res' = res.
Proof.
  intros H. apply open_namev_returns in H as [-> ->]. split; [lia|reflexivity].
Qed.

Lemma open_namev_never_succeeds_witness :
  -1 <> 0 /\ (None : option nat) = None.
Proof.
  apply (open_namev_never_succeeds demo 1%nat st0 (Some "/") 0 None None 0 None
           (-1) None
           (mkState (<[2%nat := 1]> ∅) [EvVref 2; EvLookup None None 0 None])).
  vm_compute. reflexivity.
Defined.

(** An existing file and a file to create: neither call returns. *)
Example open_namev_existing_and_create (fuel : nat) (st : state)
    (res : option nat) (ul : Z) (un : option string) :
  open_namev demo fuel st (Some "/bin") 0 res None ul un = Timeout
  /\ open_namev demo fuel st (Some "/bin/new") (O_CREAT demo) res None ul un
     = Timeout.
Proof.
  unfold open_namev. rewrite !dir_namev_unfold. cbn.
  destruct fuel; split; reflexivity.
Qed.

(** C5.  In the demonstration tree the root resolves and holds no entry
    [nofile]; the create flag is not set.  [open_namev] on "/nofile" does
    not fail with -ENOENT: it does not return at all, for any fuel, because
    the scan of [dir_namev] tests the byte at index 1 for ever.  The same
    holds for every kernel, state, flag and base. *)
Theorem open_namev_missing_file_never_returns :
  demo_find "nofile" (demo_dir 1) = None
  /\ O_CREAT demo <> 0
  /\ vfs_root_vn demo = Some 1%nat
  /\ (forall (fuel : nat) (st : state) (res : option nat) (ul : Z)
             (un : option string),
        open_namev demo fuel st (Some "/nofile") 0 res None ul un = Timeout)
  /\ (forall (K : kernel) (fuel : nat) (st : state) (flag : Z)
             (res base : option nat) (ul : Z) (un : option string),
        returned (open_namev K fuel st (Some "/nofile") flag res base ul un)
        = false).
Proof.
  split; [reflexivity|]. split; [discriminate|]. split; [reflexivity|]. split.
  - intros fuel st res ul un. unfold open_namev.
    rewrite dir_namev_unfold. cbn. destruct fuel; reflexivity.
  - intros K fuel st flag res base ul un. unfold open_namev.
    rewrite dir_namev_unfold.
    destruct (dir_namev_start K "/nofile" base); [|reflexivity].
    destruct fuel; reflexivity.
Qed.

(** ** Reverse name lookup and path reconstruction *)

(** C6.  Scenario 3 on the demonstration tree: the root holds [abc] with
    inode number 5, the capacity is 3.  [lookup_name] faults on its first
    turn, because the entry pointer [dent] is NULL when it is read; it
    returns no code and writes nothing.  The branch that handles a found
    entry stores "ab", leaves the byte at index 2 as it was and stores the
    terminator at index 3, outside the capacity; on a region of exactly 3
    bytes that store faults.  With a valid entry pointer the whole function
    behaves like that branch.  [lookup_dirpath] for [bin] with capacity 2
    (the path "/bin" needs 5) returns -1, not -ERANGE, and leaves the buffer
    as it was. *)
Theorem lookup_name_truncation_broken :
  (forall (fuel : nat) (buf : list ascii),
      lookup_name demo (S fuel) st0 (Some 1%nat) (Some 5%nat) buf 3 = Fault)
  /\ lookup_name_found demo (xs 4) 3 "abc"
     = Ret (- ERANGE demo, ["a"; "b"; "X"; NUL]%char)
  /\ lookup_name_found demo (xs 3) 3 "abc" = Fault
  /\ lookup_name_with demo (Some (mkDirent 0 "")) 5 st0 (Some 1%nat) (Some 5%nat)
                      (xs 4) 3
     = Ret (- ERANGE demo, ["a"; "b"; "X"; NUL]%char,
            mkState ∅ [EvOpReaddir 1 0; EvOpReaddir 1 1; EvOpReaddir 1 2;
                       EvOpReaddir 1 3])
  /\ (forall fuel : nat,
        lookup_dirpath demo (S fuel) st0 (Some 2%nat) (Some (xs 2)) 2
        = Ret (-1, Some (xs 2),
               mkState ∅ [EvLookup (Some 2%nat) (Some "..") 3 None])).
Proof.
  split; [|split; [|split; [|split]]].
  - intros fuel buf. rewrite lookup_name_null_dent. reflexivity.
  - vm_compute. reflexivity.
  - vm_compute. reflexivity.
  - vm_compute. reflexivity.
  - intros fuel. rewrite lookup_dirpath_unfold by discriminate. reflexivity.
Qed.

(** For every kernel, [lookup_name] never returns -ERANGE or 0: it returns
    -1 on a NULL argument, -ENOENT on a directory of length 0, and faults
    otherwise. *)
Lemma lookup_name_outcomes (K : kernel) (fuel : nat) (st : state)
    (dir entry : option nat) (buf : list ascii) (size : Z) :
  lookup_name K (S fuel) st dir entry buf size = Ret (-1, buf, st)
  \/ lookup_name K (S fuel) st dir entry buf size = Ret (- ENOENT K, buf, st)
  \/ lookup_name K (S fuel) st dir entry buf size = Fault.
Proof.
  destruct dir as [d|]; [|left; reflexivity].
  destruct entry as [e|]; [|left; reflexivity].
  rewrite lookup_name_null_dent.
  destruct (0 =? vn_len K d st); auto.
Qed.

(** C8.  For every kernel, every node and every buffer,
    [lookup_dirpath(node, buf, 64)] returns -1 and leaves the buffer as it
    was; the only thing recorded is the entry into [lookup] for "..", made
    with a NULL slot.  This covers the root of the demonstration tree, whose
    ".." is the root itself.  The statements that follow the walk, run for a
    root (no segment, length 0), store a terminator at index 1 and nothing
    at index 0. *)
Theorem lookup_dirpath_root_fails :
  (forall (K : kernel) (fuel : nat) (st : state) (r : nat) (b : list ascii),
      lookup_dirpath K (S fuel) st (Some r) (Some b) 64
      = Ret (-1, Some b, log (EvLookup (Some r) (Some "..") 3 None) st))
  /\ demo_find ".." (demo_dir 1) = Some 1%nat
  /\ lookup_dirpath_finish demo 64 (xs 64) [] 0
     = Ret (0, <[1%nat := NUL]> (xs 64)).
Proof.
  split; [|split].
  - intros. apply lookup_dirpath_unfold. discriminate.
  - reflexivity.
  - vm_compute. reflexivity.
Qed.

(** * Further properties of the resolver *)

(** ** [lookup] *)

Lemma refcount_vref_other (m : gmap nat Z) (tr : list event) (v u : nat) (x : Z) :
  refcount (mkState (<[v := x]> m) tr) u
  = if decide (u = v) then x else default 0 (m !! u).
Proof.
  unfold refcount. cbn. rewrite lookup_insert.
  destruct (decide (v = u)) as [->|Hne].
  - rewrite decide_True by reflexivity. reflexivity.
  - rewrite decide_False by congruence. reflexivity.
Qed.

(** X1.  A call of [lookup] that returns a code other than 0 returned -1 or
    -ENOTDIR, left the caller's slot and every reference count as they
    were, and called no vnode operation. *)
Theorem lookup_failure_changes_nothing (K : kernel) (st : state)
    (dir : option nat) (name : option string) (len : Z) (slot : option nat)
    (rc : Z) (slot' : option nat) (st' : state) :
  lookup K st dir name len slot = Ret (rc, slot', st') ->
  rc <> 0 ->
  (rc = -1 \/ rc = - ENOTDIR K)
  /\ slot' = slot
  /\ vn_refcount st' = vn_refcount st
  /\ trace st' = (trace st ++ [EvLookup dir name len slot])%list.
Proof.
  unfold lookup. intros H Hrc.
  destruct dir as [d|], slot as [r|], name as [nm|];
    try (injection H as <- <- <-; cbn; auto).
  destruct (vop_lookup (vn_ops K d)) as [op|].
  - destruct (op d nm len _ _) as [[c t] st1].
    destruct t as [t|]; cbn in H; injection H as <- _ _; contradiction.
  - injection H as <- <- <-. cbn. auto.
Qed.

Lemma lookup_failure_changes_nothing_witness :
  (-20 = -1 \/ -20 = - ENOTDIR demo)
  /\ Some 3%nat = Some 3%nat
  /\ vn_refcount (mkState ∅ [EvLookup (Some 3%nat) (Some "x") 1 (Some 3%nat)])
     = vn_refcount st0
  /\ [EvLookup (Some 3%nat) (Some "x") 1 (Some 3%nat)]
     = (trace st0 ++ [EvLookup (Some 3%nat) (Some "x") 1 (Some 3%nat)])%list.
Proof.
  apply (lookup_failure_changes_nothing demo st0 (Some 3%nat) (Some "x") 1
           (Some 3%nat) (-20) (Some 3%nat)
           (mkState ∅ [EvLookup (Some 3%nat) (Some "x") 1 (Some 3%nat)])).
  - vm_compute. reflexivity.
  - lia.
Defined.

(** X2.  When the directory, the name and the slot are not NULL and the
    directory has a lookup operation, [lookup] returns 0 whatever code the
    operation returned: the code of the operation is dropped. *)
Theorem lookup_drops_operation_code (K : kernel) (st : state) (d r : nat)
    (nm : string) (len : Z)
    (op : nat -> string -> Z -> option nat -> state -> Z * option nat * state) :
  vop_lookup (vn_ops K d) = Some op ->
  exists (slot' : option nat) (st' : state),
    lookup K st (Some d) (Some nm) len (Some r) = Ret (0, slot', st').
Proof.
  intros Hop. unfold lookup. rewrite Hop.
  destruct (op d nm len _ _) as [[c t] st1].
  destruct t as [t|]; cbn; eauto.
Qed.

Lemma lookup_drops_operation_code_witness :
  exists (slot' : option nat) (st' : state),
    lookup demo st0 (Some 1%nat) (Some "nofile") 6 (Some 4%nat)
    = Ret (0, slot', st').
Proof.
  apply (lookup_drops_operation_code demo st0 1%nat 4%nat "nofile" 6 demo_lookup).
  reflexivity.
Defined.

(** X3.  What a delegated [lookup] hands back.  The operation receives the
    contents of the slot, or the directory itself for the name ".", and
    leaves [t] there.  [lookup] then adds one reference to the node [t], if
    there is one, and to no other node.  The caller's slot receives [t],
    except for the name ".", where it is left as it was. *)
Theorem lookup_delegated_result (K : kernel) (st : state) (d r : nat)
    (nm : string) (len : Z)
    (op : nat -> string -> Z -> option nat -> state -> Z * option nat * state)
    (c : Z) (t : option nat) (st1 : state) :
  vop_lookup (vn_ops K d) = Some op ->
  op d nm len (if String.eqb nm "." then Some d else Some r)
     (log (EvOpLookup d nm len)
          (log (EvLookup (Some d) (Some nm) len (Some r)) st))
  = (c, t, st1) ->
  exists st2 : state,
    lookup K st (Some d) (Some nm) len (Some r)
    = Ret (0, if String.eqb nm "." then Some r else t, st2)
    /\ forall u : nat,
         refcount st2 u
         = refcount st1 u + (if decide (t = Some u) then 1 else 0).
Proof.
  intros Hop Hcall. unfold lookup. rewrite Hop, Hcall.
  destruct t as [v|]; cbn.
  - eexists. split; [reflexivity|]. intros u.
    rewrite refcount_vref_other.
    destruct (decide (u = v)) as [->|Hne].
    + rewrite decide_True by reflexivity. reflexivity.
    + rewrite decide_False by congruence. unfold refcount. lia.
  - exists st1. split; [reflexivity|]. intros u.
    rewrite decide_False by discriminate. lia.
Qed.

Lemma lookup_delegated_result_witness :
  exists st2 : state,
    lookup demo st0 (Some 1%nat) (Some "bin") 3 (Some 4%nat)
    = Ret (0, if String.eqb "bin" "." then Some 4%nat else Some 2%nat, st2)
    /\ forall u : nat,
         refcount st2 u
         = refcount
             (log (EvOpLookup 1 "bin" 3)
                  (log (EvLookup (Some 1%nat) (Some "bin") 3 (Some 4%nat)) st0)) u
           + (if decide (Some 2%nat = Some u) then 1 else 0).
Proof.
  apply (lookup_delegated_result demo st0 1%nat 4%nat "bin" 3 demo_lookup 0);
    reflexivity.
Defined.

(** ** [dir_namev] and [open_namev] *)

(** X4.  The inner scan of [dir_namev] returns only at the index it was
    started at: either that byte is a separator, and [end_index] becomes the
    index before it, or the index is at or past the terminator, and
    [end_index] is left as it was.  It never returns a later index. *)
Theorem scan_returns_start_index (fuel : nat) (pathname : string)
    (i e i' e' : Z) :
  scan fuel pathname i e = Ret (i', e') ->
  i' = i
  /\ ((i < strlen pathname /\ is_slash (char_at pathname i) = true /\ e' = i - 1)
      \/ (strlen pathname <= i /\ e' = e)).
Proof.
  destruct fuel as [|fuel]; [discriminate|]. cbn [scan].
  destruct (scan_step pathname i) as [j|j k|j] eqn:Hstep.
  - apply scan_step_again in Hstep as Hj. subst j.
    rewrite (scan_stuck _ _ Hstep). discriminate.
  - unfold scan_step in Hstep.
    destruct (i <? strlen pathname) eqn:Hlt; [|discriminate].
    destruct (is_slash (char_at pathname i)) eqn:Hs; [|discriminate].
    injection Hstep as <- <-. intros H; injection H as <- <-.
    apply Z.ltb_lt in Hlt. auto.
  - unfold scan_step in Hstep.
    destruct (i <? strlen pathname) eqn:Hlt.
    + destruct (is_slash (char_at pathname i)); discriminate.
    + injection Hstep as <-. intros H; injection H as <- <-.
      apply Z.ltb_ge in Hlt. auto.
Qed.

Lemma scan_returns_start_index_witness :
  1 = 1
  /\ ((1 < strlen "//bin" /\ is_slash (char_at "//bin" 1) = true /\ 0 = 1 - 1)
      \/ (strlen "//bin" <= 1 /\ 0 = 7)).
Proof.
  apply (scan_returns_start_index 3 "//bin" 1 7 1 0). reflexivity.
Defined.

Lemma start_at_end (pathname : string) :
  strlen pathname <= start_index_of pathname <->
  pathname = "" \/ pathname = "/".
Proof.
  unfold start_index_of, strlen, char_at.
  change (Z.to_nat 0) with 0%nat. split.
  - destruct pathname as [|c [|c' s]]; simpl String.get; simpl String.length.
    + auto.
    + destruct (is_slash c) eqn:Hc; [|lia]. intros _.
      unfold is_slash in Hc. apply Ascii.eqb_eq in Hc. subst c. auto.
    + destruct (is_slash c); lia.
  - intros [-> | ->]; vm_compute; discriminate.
Qed.

(** X5.  With a start node that is not NULL, [dir_namev] returns 0 exactly
    on the pathnames "" and "/". *)
Theorem dir_namev_success_paths (K : kernel) (fuel : nat) (st : state)
    (pathname : string) (outs : namev_out) (base : option nat) (v : nat) :
  dir_namev_start K pathname base = Some v ->
  (exists (outs' : namev_out) (st' : state),
      dir_namev K (S fuel) st (Some pathname) outs base = Ret (0, outs', st'))
  <-> (pathname = "" \/ pathname = "/").
Proof.
  intros Hstart. rewrite dir_namev_unfold, Hstart.
  rewrite <- start_at_end. unfold scan_step.
  destruct (start_index_of pathname <? strlen pathname) eqn:Hlt.
  - apply Z.ltb_lt in Hlt.
    destruct (is_slash (char_at pathname (start_index_of pathname)));
      (split; [intros (o & s' & H); discriminate | lia]).
  - apply Z.ltb_ge in Hlt. split; [intros _; exact Hlt | eauto].
Qed.

Lemma dir_namev_success_paths_witness :
  (exists (outs' : namev_out) (st' : state),
      dir_namev demo 1 st0 (Some "/") out0 None = Ret (0, outs', st'))
  <-> ("/" = "" \/ "/" = "/").
Proof.
  apply (dir_namev_success_paths demo 0 st0 "/" out0 None 2). reflexivity.
Defined.

(** X6.  Every call of [dir_namev] on a pathname that is not NULL, if it
    returns, returns 0 or -1, has stored nothing in its three output slots,
    has added one reference to the node it started from and has changed no
    other reference count. *)
Theorem dir_namev_reference_accounting (K : kernel) (fuel : nat) (st : state)
    (pathname : string) (outs : namev_out) (base : option nat)
    (rc : Z) (outs' : namev_out) (st' : state) :
  dir_namev K fuel st (Some pathname) outs base = Ret (rc, outs', st') ->
  (rc = 0 \/ rc = -1)
  /\ outs' = outs
  /\ exists v : nat,
       dir_namev_start K pathname base = Some v
       /\ forall u : nat,
            refcount st' u = refcount st u + (if decide (u = v) then 1 else 0).
Proof.
  rewrite dir_namev_unfold.
  destruct (dir_namev_start K pathname base) as [v|]; [|discriminate].
  destruct fuel; [discriminate|].
  assert (Hacc : forall (tr : list event) (u : nat),
            refcount (mkState (<[v := refcount st v + 1]> (vn_refcount st)) tr) u
            = refcount st u + (if decide (u = v) then 1 else 0)).
  { intros tr u. rewrite refcount_vref_other.
    destruct (decide (u = v)) as [->|_]; [reflexivity|]. unfold refcount. lia. }
  destruct (scan_step pathname (start_index_of pathname)); [discriminate| |];
    intros H; injection H as <- <- <-;
    (split; [auto|]); (split; [reflexivity|]); exists v;
    (split; [reflexivity|]); intros u; apply Hacc.
Qed.

Lemma dir_namev_reference_accounting_witness :
  (-1 = 0 \/ -1 = -1)
  /\ out0 = out0
  /\ exists v : nat,
       dir_namev_start demo "//bin" (Some 5%nat) = Some v
       /\ forall u : nat,
            refcount
              (mkState (<[5%nat := 1]> ∅)
                       [EvVref 5; EvLookup (Some 5%nat) (Some "") 0 None]) u
            = refcount st0 u + (if decide (u = v) then 1 else 0).
Proof.
  apply (dir_namev_reference_accounting demo 1 st0 "//bin" out0 (Some 5%nat)
           (-1) out0
           (mkState (<[5%nat := 1]> ∅)
                    [EvVref 5; EvLookup (Some 5%nat) (Some "") 0 None])).
  vm_compute. reflexivity.
Defined.

(** X7.  A call of [open_namev] that returns has called no vnode operation
    (no lookup, no create, no readdir) and no [vput]: all it recorded is at
    most two events, each a [vref] or an entry into [lookup]. *)
Theorem open_namev_calls_no_operation (K : kernel) (fuel : nat) (st : state)
    (pathname : option string) (flag : Z) (res base : option nat)
    (ul : Z) (un : option string) (rc : Z) (res' : option nat) (st' : state) :
  open_namev K fuel st pathname flag res base ul un = Ret (rc, res', st') ->
  exists evs : list event,
    trace st' = (trace st ++ evs)%list
    /\ forallb quiet_event evs = true
    /\ (length evs <= 2)%nat.
Proof.
  unfold open_namev. destruct pathname as [p|].
  - rewrite dir_namev_unfold.
    destruct (dir_namev_start K p base) as [v|]; [|discriminate].
    destruct fuel; [discriminate|].
    destruct (scan_step p (start_index_of p)); [discriminate| |]; cbn;
      intros H; injection H as _ _ <-; cbn.
    + exists [EvVref v; EvLookup (Some v) (Some "") 0 None].
      rewrite <- app_assoc. cbn. auto with lia.
    + exists [EvVref v; EvLookup None un ul None].
      rewrite <- app_assoc. cbn. auto with lia.
  - intros H; injection H as _ _ <-. exists []. rewrite app_nil_r. cbn.
    auto with lia.
Qed.

Lemma open_namev_calls_no_operation_witness :
  exists evs : list event,
    [EvVref 2; EvLookup None None 0 None] = (trace st0 ++ evs)%list
    /\ forallb quiet_event evs = true
    /\ (length evs <= 2)%nat.
Proof.
  apply (open_namev_calls_no_operation demo 1%nat st0 (Some "/") (O_CREAT demo)
           None None 0 None (-1) None
           (mkState (<[2%nat := 1]> ∅) [EvVref 2; EvLookup None None 0 None])).
  vm_compute. reflexivity.
Defined.

(** ** [lookup_name] and [lookup_dirpath] *)





(** ** The stores of [lookup_name] *)

Lemma chars_length (s : string) :
  length (list_ascii_of_string s) = String.length s.
Proof. induction s as [|c s IH]; simpl; [reflexivity|]. rewrite IH. reflexivity. Qed.

Lemma wrap32_small (x : Z) : 0 <= x < 2 ^ 32 -> wrap32 x = x.
Proof. intros H. unfold wrap32. apply Z.mod_small. exact H. Qed.

Lemma strncpy_ok (K : kernel) (dst : list ascii) (src : string) (n : Z) :
  0 <= n <= Z.of_nat (length dst) ->
  n <= strlen src ->
  strncpy K dst src n
  = Ret (take (Z.to_nat n) (list_ascii_of_string src) ++ drop (Z.to_nat n) dst)%list.
Proof.
  intros Hn Hs. unfold strncpy.
  replace (if strncpy_pads K then n else Z.min n (strlen src + 1)) with n
    by (destruct (strncpy_pads K); lia).
  destruct (Z.of_nat (length dst) <? n) eqn:Hlt; [apply Z.ltb_lt in Hlt; lia|].
  rewrite take_app_le; [reflexivity|].
  rewrite chars_length. unfold strlen in Hs. lia.
Qed.

Lemma strncpy_fault (K : kernel) (dst : list ascii) (src : string) (n : Z) :
  Z.of_nat (length dst) < n ->
  n <= strlen src ->
  strncpy K dst src n = Fault.
Proof.
  intros H Hs. unfold strncpy.
  replace (if strncpy_pads K then n else Z.min n (strlen src + 1)) with n
    by (destruct (strncpy_pads K); lia).
  apply Z.ltb_lt in H. rewrite H. reflexivity.
Qed.

Lemma store_ok (buf : list ascii) (i : Z) (c : ascii) :
  0 <= i < Z.of_nat (length buf) ->
  store buf i c = Ret (<[Z.to_nat i := c]> buf).
Proof.
  intros H. unfold store.
  replace (0 <=? i) with true by (symmetry; apply Z.leb_le; lia).
  replace (i <? Z.of_nat (length buf)) with true by (symmetry; apply Z.ltb_lt; lia).
  reflexivity.
Qed.

Lemma store_fault (buf : list ascii) (i : Z) (c : ascii) :
  Z.of_nat (length buf) <= i -> store buf i c = Fault.
Proof.
  intros H. unfold store.
  replace (i <? Z.of_nat (length buf)) with false by (symmetry; apply Z.ltb_ge; lia).
  rewrite andb_false_r. reflexivity.
Qed.

(** X10.  The branch of [lookup_name] for a name that fits (capacity at
    least the length of the name plus one): it returns 0 and the region
    holds the bytes of the name followed by its old bytes from the index
    [strlen(name)] on.  No terminator is stored after the name. *)
Theorem lookup_name_found_fits (K : kernel) (buf : list ascii) (size : Z)
    (name : string) :
  strlen name + 1 <= size ->
  size < 2 ^ 32 ->
  strlen name <= Z.of_nat (length buf) ->
  lookup_name_found K buf size name
  = Ret (0, (list_ascii_of_string name ++ drop (String.length name) buf)%list).
Proof.
  intros Hfit Hsz Hbuf. unfold lookup_name_found.
  assert (Hpos : 0 <= strlen name) by (unfold strlen; lia).
  rewrite wrap32_small by lia.
  replace (size <? strlen name + 1) with false by (symmetry; apply Z.ltb_ge; lia).
  rewrite strncpy_ok by lia. cbn.
  unfold strlen. rewrite Nat2Z.id.
  rewrite take_ge by (rewrite chars_length; lia).
  reflexivity.
Qed.

Lemma lookup_name_found_fits_witness :
  lookup_name_found demo (xs 6) 4 "abc"
  = Ret (0, (list_ascii_of_string "abc" ++ drop (String.length "abc") (xs 6))%list).
Proof.
  apply (lookup_name_found_fits demo (xs 6) 4 "abc"); vm_compute;
    first [reflexivity | discriminate].
Defined.

(** X11.  The truncation branch of [lookup_name] (capacity from 1 up to the
    length of the name) on a region longer than the capacity: it returns
    -ERANGE; the first [size - 1] bytes of the region are those of the name;
    the byte at index [size - 1], the last one inside the capacity, is left
    as it was; the terminator is stored at index [size], the first index
    outside the capacity; the bytes after it are left as they were. *)
Theorem lookup_name_found_truncates (K : kernel) (buf : list ascii) (size : Z)
    (name : string) :
  1 <= size <= strlen name ->
  strlen name + 1 < 2 ^ 32 ->
  size < Z.of_nat (length buf) ->
  exists buf' : list ascii,
    lookup_name_found K buf size name = Ret (- ERANGE K, buf')
    /\ length buf' = length buf
    /\ take (Z.to_nat (size - 1)) buf'
       = take (Z.to_nat (size - 1)) (list_ascii_of_string name)
    /\ buf' !! Z.to_nat (size - 1) = buf !! Z.to_nat (size - 1)
    /\ buf' !! Z.to_nat size = Some NUL
    /\ drop (Z.to_nat (size + 1)) buf' = drop (Z.to_nat (size + 1)) buf.
Proof.
  intros Hsize Hname Hbuf. unfold lookup_name_found.
  rewrite (wrap32_small (strlen name + 1)) by lia.
  replace (size <? strlen name + 1) with true by (symmetry; apply Z.ltb_lt; lia).
  rewrite (wrap32_small (size - 1)) by lia.
  rewrite strncpy_ok by lia. cbn.
  set (k := Z.to_nat (size - 1)).
  assert (Hk : Z.to_nat size = S k) by (unfold k; lia).
  assert (Hk2 : Z.to_nat (size + 1) = S (S k)) by (unfold k; lia).
  assert (Hchars : (k <= length (list_ascii_of_string name))%nat).
  { rewrite chars_length. unfold strlen in Hsize. unfold k. lia. }
  assert (Hlen : length (take k (list_ascii_of_string name) ++ drop k buf)%list
                 = length buf).
  { rewrite length_app, length_take_le, length_drop by exact Hchars.
    unfold k. lia. }
  rewrite store_ok by (rewrite Hlen; lia). cbn.
  eexists. split; [reflexivity|]. rewrite Hk, Hk2.
  assert (Htk : length (take k (list_ascii_of_string name)) = k)
    by (apply length_take_le; exact Hchars).
  repeat split.
  - rewrite length_insert. exact Hlen.
  - rewrite take_insert_ge by lia.
    rewrite take_app_length' by (symmetry; exact Htk). reflexivity.
  - rewrite list_lookup_insert_ne by lia.
    rewrite lookup_app_r by lia. rewrite Htk, Nat.sub_diag, lookup_drop.
    f_equal. lia.
  - apply list_lookup_insert_eq. rewrite Hlen. lia.
  - rewrite drop_insert_lt by lia.
    rewrite drop_app_ge by lia. rewrite Htk, drop_drop. f_equal. lia.
Qed.

Lemma lookup_name_found_truncates_witness :
  exists buf' : list ascii,
    lookup_name_found demo (xs 8) 4 "abcdef" = Ret (- ERANGE demo, buf')
    /\ length buf' = length (xs 8)
    /\ take (Z.to_nat (4 - 1)) buf'
       = take (Z.to_nat (4 - 1)) (list_ascii_of_string "abcdef")
    /\ buf' !! Z.to_nat (4 - 1) = xs 8 !! Z.to_nat (4 - 1)
    /\ buf' !! Z.to_nat 4 = Some NUL
    /\ drop (Z.to_nat (4 + 1)) buf' = drop (Z.to_nat (4 + 1)) (xs 8).
Proof.
  apply (lookup_name_found_truncates demo (xs 8) 4 "abcdef"); vm_compute;
    first [reflexivity | split; discriminate].
Defined.

(** X12.  The truncation branch of [lookup_name] with capacity 0, on a
    region that can hold the name and its terminator: [size - 1] wraps to the
    largest [size_t], so the count given to [strncpy] no longer bounds the
    copy.  With a [strncpy] that pads, the call runs over the end of the
    region and faults.  With a [strncpy] that stops after the terminator,
    the whole name and its terminator are stored in the buffer announced as
    holding no byte, the byte at index 0 is then overwritten with a
    terminator, and -ERANGE is returned. *)
Theorem lookup_name_found_zero_capacity (K : kernel) (buf : list ascii)
    (name : string) :
  strlen name + 1 < 2 ^ 32 ->
  strlen name + 1 <= Z.of_nat (length buf) ->
  Z.of_nat (length buf) < 2 ^ 32 - 1 ->
  lookup_name_found K buf 0 name
  = if strncpy_pads K then Fault
    else Ret (- ERANGE K,
              <[0%nat := NUL]>
                (list_ascii_of_string name
                 ++ NUL :: drop (S (String.length name)) buf)%list).
Proof.
  intros Hname Hfit Hbuf. unfold lookup_name_found.
  assert (Hpos : 0 <= strlen name) by (unfold strlen; lia).
  rewrite (wrap32_small (strlen name + 1)) by lia.
  replace (0 <? strlen name + 1) with true by (symmetry; apply Z.ltb_lt; lia).
  replace (wrap32 (0 - 1)) with (2 ^ 32 - 1) by reflexivity.
  unfold strncpy. destruct (strncpy_pads K).
  - replace (Z.of_nat (length buf) <? 2 ^ 32 - 1) with true
      by (symmetry; apply Z.ltb_lt; lia).
    reflexivity.
  - rewrite Z.min_r by lia.
    replace (Z.of_nat (length buf) <? strlen name + 1) with false
      by (symmetry; apply Z.ltb_ge; lia).
    replace (Z.to_nat (strlen name + 1)) with (String.length name + 1)%nat
      by (unfold strlen; lia).
    rewrite take_app_add' by (symmetry; apply chars_length).
    replace (String.length name + 1)%nat with (S (String.length name)) by lia.
    change (take 1 (replicate (S (String.length name)) NUL)) with [NUL].
    rewrite <- app_assoc. change ([NUL] ++ ?r)%list with (NUL :: r).
    cbn [mbind outcome_bind obind].
    rewrite store_ok.
    + reflexivity.
    + rewrite length_app, chars_length. cbn [length].
      rewrite length_drop. unfold strlen in Hfit. lia.
Qed.

Lemma lookup_name_found_zero_capacity_witness :
  lookup_name_found demo (xs 16) 0 "abc"
  = if strncpy_pads demo then Fault
    else Ret (- ERANGE demo,
              <[0%nat := NUL]>
                (list_ascii_of_string "abc"
                 ++ NUL :: drop (S (String.length "abc")) (xs 16))%list).
Proof.
  apply (lookup_name_found_zero_capacity demo (xs 16) "abc"); vm_compute;
    first [reflexivity | discriminate].
Defined.

(** X13.  The truncation branch of [lookup_name] on a region that is not
    longer than the announced capacity always faults: one of its stores
    lands outside the region. *)
Theorem lookup_name_found_overruns_exact_buffer (K : kernel) (buf : list ascii)
    (size : Z) (name : string) :
  1 <= size <= strlen name ->
  strlen name + 1 < 2 ^ 32 ->
  Z.of_nat (length buf) <= size ->
  lookup_name_found K buf size name = Fault.
Proof.
  intros Hsize Hname Hbuf. unfold lookup_name_found.
  rewrite (wrap32_small (strlen name + 1)) by lia.
  replace (size <? strlen name + 1) with true by (symmetry; apply Z.ltb_lt; lia).
  rewrite (wrap32_small (size - 1)) by lia.
  destruct (Z_lt_le_dec (Z.of_nat (length buf)) (size - 1)) as [Hshort|Hlong].
  - rewrite strncpy_fault by lia. reflexivity.
  - rewrite strncpy_ok by lia. cbn.
    rewrite store_fault; [reflexivity|].
    rewrite length_app, length_take_le, length_drop.
    + lia.
    + rewrite chars_length. unfold strlen in Hsize. lia.
Qed.

Lemma lookup_name_found_overruns_exact_buffer_witness :
  lookup_name_found demo (xs 3) 3 "abc" = Fault.
Proof.
  apply (lookup_name_found_overruns_exact_buffer demo (xs 3) 3 "abc");
    vm_compute; first [reflexivity | split; discriminate | discriminate].
Defined.

(** ** The copy-out of [lookup_dirpath] *)

(** A block [mid] written over a region at offset [off]. *)
Lemma splice_facts (dst mid : list ascii) (off : nat) :
  (off + length mid <= length dst)%nat ->
  length (take off dst ++ mid ++ drop (off + length mid) dst)%list = length dst
  /\ (forall k : nat, (k <= off)%nat ->
        take k (take off dst ++ mid ++ drop (off + length mid) dst)%list
        = take k dst)
  /\ (forall k : nat, (off + length mid <= k)%nat ->
        drop k (take off dst ++ mid ++ drop (off + length mid) dst)%list
        = drop k dst).
Proof.
  intros Hle.
  assert (Htl : length (take off dst) = off) by (apply length_take_le; lia).
  repeat split.
  - rewrite !length_app, Htl, length_drop. lia.
  - intros k Hk. rewrite take_app_le by lia.
    rewrite take_take. f_equal. lia.
  - intros k Hk. rewrite app_assoc.
    rewrite drop_app_ge by (rewrite length_app; lia).
    rewrite length_app, Htl, drop_drop. f_equal. lia.
Qed.

Lemma memcpy_ok (dst : list ascii) (off : Z) (src : string) (n : Z) :
  0 <= off -> 0 <= n <= strlen src -> off + n <= Z.of_nat (length dst) ->
  memcpy dst off src n
  = Ret (take (Z.to_nat off) dst
         ++ take (Z.to_nat n) (list_ascii_of_string src)
         ++ drop (Z.to_nat off
                  + length (take (Z.to_nat n) (list_ascii_of_string src))) dst)%list.
Proof.
  intros Hoff Hn Hlen. unfold memcpy.
  replace (Z.of_nat (length dst) <? off + n) with false
    by (symmetry; apply Z.ltb_ge; lia).
  assert (Hc : (Z.to_nat n <= length (list_ascii_of_string src))%nat)
    by (rewrite chars_length; unfold strlen in Hn; lia).
  rewrite take_app_le by exact Hc.
  rewrite length_take_le by exact Hc.
  repeat f_equal. lia.
Qed.

(** One segment: the offset stays inside the capacity and nothing outside
    the window from the old offset to the capacity is written. *)
Lemma copy_segment_within (osize offset : Z) (buf : list ascii) (name : string) :
  1 <= osize < 2 ^ 32 ->
  osize <= Z.of_nat (length buf) ->
  0 <= offset <= osize - 1 ->
  exists (offset' : Z) (buf' : list ascii),
    copy_segment osize offset buf name = Ret (offset', buf')
    /\ offset <= offset' <= osize - 1
    /\ length buf' = length buf
    /\ take (Z.to_nat offset) buf' = take (Z.to_nat offset) buf
    /\ drop (Z.to_nat osize) buf' = drop (Z.to_nat osize) buf.
Proof.
  intros Hos Hbuf Hoff. unfold copy_segment.
  assert (Hpos : 0 <= strlen name) by (unfold strlen; lia).
  rewrite (wrap32_small (osize - 1)) by lia.
  destruct (offset <? osize - 1) eqn:Hlt.
  - apply Z.ltb_lt in Hlt.
    rewrite (wrap32_small (osize - offset)) by lia.
    rewrite (wrap32_small (osize - offset - 1)) by lia.
    destruct (osize - offset - 1 >=? strlen name) eqn:Hge.
    + apply Z.geb_le in Hge.
      rewrite memcpy_ok by lia. cbn.
      rewrite (wrap32_small (offset + strlen name)) by lia.
      assert (Hm : length (take (Z.to_nat (strlen name)) (list_ascii_of_string name))
                   = Z.to_nat (strlen name)).
      { apply length_take_le. rewrite chars_length. unfold strlen. lia. }
      destruct (splice_facts buf
                  (take (Z.to_nat (strlen name)) (list_ascii_of_string name))
                  (Z.to_nat offset)) as (Hl & Ht & Hd); [rewrite Hm; lia|].
      eexists _, _. split; [reflexivity|]. split; [lia|].
      split; [exact Hl|]. split; [apply Ht; lia|].
      apply Hd. rewrite Hm. lia.
    + assert (Hn : osize - offset - 1 < strlen name).
      { destruct (Z_lt_le_dec (osize - offset - 1) (strlen name)) as [H|H];
          [exact H|]. apply Z.geb_le in H. congruence. }
      rewrite memcpy_ok by lia. cbn.
      assert (Hm : length (take (Z.to_nat (osize - offset - 1))
                             (list_ascii_of_string name))
                   = Z.to_nat (osize - offset - 1)).
      { apply length_take_le. rewrite chars_length. unfold strlen in Hn. lia. }
      destruct (splice_facts buf
                  (take (Z.to_nat (osize - offset - 1)) (list_ascii_of_string name))
                  (Z.to_nat offset)) as (Hl & Ht & Hd); [rewrite Hm; lia|].
      rewrite store_ok by (rewrite Hl; lia). cbn.
      eexists _, _. split; [reflexivity|]. split; [lia|].
      split; [rewrite length_insert; exact Hl|].
      split; [rewrite take_insert_ge by lia; apply Ht; lia|].
      rewrite drop_insert_lt by lia. apply Hd. rewrite Hm. lia.
  - apply Z.ltb_ge in Hlt. eexists _, _. split; [reflexivity|].
    repeat split; lia.
Qed.

(** X14.  The copy-out loop of [lookup_dirpath] stays inside the capacity.
    For a capacity between 1 and the length of the region and an offset
    inside the capacity, whatever the segments, the loop does not fault, the
    final offset is at most [osize - 1], the bytes before the starting
    offset and the bytes from index [osize] on are left as they were. *)
Theorem copy_segments_within_capacity (names : list string) (osize offset : Z)
    (buf : list ascii) :
  1 <= osize < 2 ^ 32 ->
  osize <= Z.of_nat (length buf) ->
  0 <= offset <= osize - 1 ->
  exists (offset' : Z) (buf' : list ascii),
    copy_segments osize offset buf names = Ret (offset', buf')
    /\ offset <= offset' <= osize - 1
    /\ length buf' = length buf
    /\ take (Z.to_nat offset) buf' = take (Z.to_nat offset) buf
    /\ drop (Z.to_nat osize) buf' = drop (Z.to_nat osize) buf.
Proof.
  intros Hos. revert offset buf.
  induction names as [|name names IH]; intros offset buf Hbuf Hoff.
  - exists offset, buf. cbn. repeat split; lia.
  - destruct (copy_segment_within osize offset buf name Hos Hbuf Hoff)
      as (o1 & b1 & Hstep & Ho1 & Hl1 & Ht1 & Hd1).
    destruct (IH o1 b1) as (o2 & b2 & Hrest & Ho2 & Hl2 & Ht2 & Hd2);
      [rewrite Hl1; exact Hbuf | lia |].
    exists o2, b2. cbn [copy_segments]. rewrite Hstep. cbn. rewrite Hrest.
    split; [reflexivity|]. split; [lia|]. split; [congruence|].
    split; [|congruence].
    rewrite <- Ht1.
    replace (Z.to_nat offset) with (Z.to_nat offset `min` Z.to_nat o1)%nat by lia.
    rewrite <- !take_take. rewrite Ht2. reflexivity.
Qed.

Lemma copy_segments_within_capacity_witness :
  exists (offset' : Z) (buf' : list ascii),
    copy_segments 5 0 (xs 8) ["/bin"; "/local"; ""] = Ret (offset', buf')
    /\ 0 <= offset' <= 5 - 1
    /\ length buf' = length (xs 8)
    /\ take (Z.to_nat 0) buf' = take (Z.to_nat 0) (xs 8)
    /\ drop (Z.to_nat 5) buf' = drop (Z.to_nat 5) (xs 8).
Proof.
  apply (copy_segments_within_capacity ["/bin"; "/local"; ""] 5 0 (xs 8));
    vm_compute;
    first [discriminate | split; first [reflexivity | discriminate]].
Defined.

Lemma segments_bytes_length (names : list string) :
  Z.of_nat (length (segments_bytes names)) = segments_length names.
Proof.
  induction names as [|name names IH]; [reflexivity|].
  change (segments_bytes (name :: names))
    with (list_ascii_of_string name ++ segments_bytes names)%list.
  change (segments_length (name :: names))
    with (strlen name + segments_length names).
  rewrite length_app, chars_length, Nat2Z.inj_add, IH. reflexivity.
Qed.

Lemma segments_length_nonneg (names : list string) : 0 <= segments_length names.
Proof. rewrite <- segments_bytes_length. lia. Qed.

(** One segment that fits below the last byte of the capacity is copied
    whole. *)
Lemma copy_segment_fit (osize offset : Z) (buf : list ascii) (name : string) :
  osize < 2 ^ 32 ->
  osize <= Z.of_nat (length buf) ->
  0 <= offset ->
  offset + strlen name <= osize - 1 ->
  copy_segment osize offset buf name
  = Ret (offset + strlen name,
         (take (Z.to_nat offset) buf ++ list_ascii_of_string name
          ++ drop (Z.to_nat offset + length (list_ascii_of_string name)) buf)%list).
Proof.
  intros Hos Hbuf Hoff Hfit. unfold copy_segment.
  assert (Hpos : 0 <= strlen name) by (unfold strlen; lia).
  rewrite (wrap32_small (osize - 1)) by lia.
  destruct (offset <? osize - 1) eqn:Hlt.
  - apply Z.ltb_lt in Hlt.
    rewrite (wrap32_small (osize - offset)) by lia.
    rewrite (wrap32_small (osize - offset - 1)) by lia.
    replace (osize - offset - 1 >=? strlen name) with true
      by (symmetry; apply Z.geb_le; lia).
    rewrite memcpy_ok by lia. cbn.
    rewrite (wrap32_small (offset + strlen name)) by lia.
    rewrite (take_ge (list_ascii_of_string name))
      by (rewrite chars_length; unfold strlen; lia).
    reflexivity.
  - apply Z.ltb_ge in Hlt.
    assert (Hz : strlen name = 0) by lia.
    assert (Hnil : list_ascii_of_string name = []).
    { apply nil_length_inv. rewrite chars_length. unfold strlen in Hz. lia. }
    rewrite Hnil, Hz. cbn. rewrite Z.add_0_r, Nat.add_0_r, take_drop.
    reflexivity.
Qed.

(** Segments that fit together below the last byte are copied one after the
    other. *)
Lemma copy_segments_fit (names : list string) (osize offset : Z)
    (buf : list ascii) :
  osize < 2 ^ 32 ->
  osize <= Z.of_nat (length buf) ->
  0 <= offset ->
  offset + segments_length names <= osize - 1 ->
  copy_segments osize offset buf names
  = Ret (offset + segments_length names,
         (take (Z.to_nat offset) buf ++ segments_bytes names
          ++ drop (Z.to_nat offset + length (segments_bytes names)) buf)%list).
Proof.
  intros Hos. revert offset buf.
  induction names as [|name names IH]; intros offset buf Hbuf Hoff Hfit.
  - cbn. rewrite Z.add_0_r, Nat.add_0_r, take_drop. reflexivity.
  - change (segments_bytes (name :: names))
      with (list_ascii_of_string name ++ segments_bytes names)%list.
    change (segments_length (name :: names))
      with (strlen name + segments_length names) in *.
    cbn [copy_segments].
    pose proof (segments_length_nonneg names) as Hrest.
    assert (Hpos : 0 <= strlen name) by (unfold strlen; lia).
    rewrite copy_segment_fit by lia. cbn.
    assert (Hc : Z.of_nat (length (list_ascii_of_string name)) = strlen name)
      by (rewrite chars_length; reflexivity).
    destruct (splice_facts buf (list_ascii_of_string name) (Z.to_nat offset))
      as (Hl & Ht & Hd); [lia|].
    rewrite IH; [|rewrite Hl; exact Hbuf | lia | lia].
    f_equal. f_equal; [lia|].
    replace (Z.to_nat (offset + strlen name))
      with (Z.to_nat offset + length (list_ascii_of_string name))%nat by lia.
    assert (Htk : take (Z.to_nat offset + length (list_ascii_of_string name))
                    (take (Z.to_nat offset) buf ++ list_ascii_of_string name
                     ++ drop (Z.to_nat offset
                              + length (list_ascii_of_string name)) buf)%list
                  = (take (Z.to_nat offset) buf ++ list_ascii_of_string name)%list).
    { rewrite (app_assoc (take (Z.to_nat offset) buf)).
      apply take_app_length'.
      rewrite length_app, length_take_le by lia. reflexivity. }
    rewrite Htk, Hd by lia.
    rewrite <- !app_assoc, length_app, Nat.add_assoc. reflexivity.
Qed.

(** X15.  The statements of [lookup_dirpath] after the walk, on segments
    whose total length plus one fits the capacity: they return 0 and the
    region starts with the bytes of the segments in list order, but the byte
    that follows them is left as it was: the terminator is stored one index
    further, or not at all, so the region does not hold the path as a
    terminated string unless that byte happened to be 0. *)
Theorem lookup_dirpath_finish_misplaces_terminator (K : kernel) (osize : Z)
    (b : list ascii) (names : list string) :
  segments_length names + 1 <= osize ->
  osize < 2 ^ 32 ->
  osize <= Z.of_nat (length b) ->
  exists b' : list ascii,
    lookup_dirpath_finish K osize b names (segments_length names) = Ret (0, b')
    /\ take (length (segments_bytes names)) b' = segments_bytes names
    /\ b' !! length (segments_bytes names) = b !! length (segments_bytes names)
    /\ length b' = length b.
Proof.
  intros Hfit Hos Hbuf.
  pose proof (segments_length_nonneg names) as Hpos.
  pose proof (segments_bytes_length names) as Hbytes.
  unfold lookup_dirpath_finish.
  rewrite (wrap32_small (segments_length names + 1)) by lia.
  replace (segments_length names + 1 >? osize) with false
    by (symmetry; rewrite Z.gtb_ltb; apply Z.ltb_ge; lia).
  rewrite copy_segments_fit by lia.
  change (Z.to_nat 0) with 0%nat.
  rewrite take_0, Z.add_0_l, Nat.add_0_l. cbn.
  rewrite (wrap32_small (osize - 1)) by lia.
  set (T := length (segments_bytes names)) in *.
  assert (Hl : length (segments_bytes names ++ drop T b)%list = length b).
  { rewrite length_app, length_drop. fold T. lia. }
  assert (Hat : (segments_bytes names ++ drop T b)%list !! T = b !! T).
  { rewrite lookup_app_r by (fold T; lia). fold T.
    rewrite Nat.sub_diag, lookup_drop. f_equal. lia. }
  destruct (segments_length names <? osize - 1) eqn:Hlt.
  - apply Z.ltb_lt in Hlt.
    rewrite store_ok by (rewrite Hl; lia). cbn.
    eexists. split; [reflexivity|].
    replace (Z.to_nat (segments_length names + 1)) with (S T) by lia.
    split; [|split].
    + rewrite take_insert_ge by lia. apply take_app_length.
    + rewrite list_lookup_insert_ne by lia. exact Hat.
    + rewrite length_insert. exact Hl.
  - cbn. eexists. split; [reflexivity|].
    split; [apply take_app_length|]. split; [exact Hat | exact Hl].
Qed.

Lemma lookup_dirpath_finish_misplaces_terminator_witness :
  exists b' : list ascii,
    lookup_dirpath_finish demo 16 (xs 16) ["/usr"; "/bin"]
                          (segments_length ["/usr"; "/bin"]) = Ret (0, b')
    /\ take (length (segments_bytes ["/usr"; "/bin"])) b'
       = segments_bytes ["/usr"; "/bin"]
    /\ b' !! length (segments_bytes ["/usr"; "/bin"])
       = xs 16 !! length (segments_bytes ["/usr"; "/bin"])
    /\ length b' = length (xs 16).
Proof.
  apply (lookup_dirpath_finish_misplaces_terminator demo 16 (xs 16)
           ["/usr"; "/bin"]);
    vm_compute; first [reflexivity | discriminate].
Defined.

(** Once the offset has reached the last byte of the capacity, the loop
    copies nothing more. *)
Lemma copy_segments_saturated (names : list string) (osize offset : Z)
    (buf : list ascii) :
  wrap32 (osize - 1) <= offset ->
  copy_segments osize offset buf names = Ret (offset, buf).
Proof.
  intros Hsat. induction names as [|name names IH]; [reflexivity|].
  cbn [copy_segments]. unfold copy_segment.
  replace (offset <? wrap32 (osize - 1)) with false
    by (symmetry; apply Z.ltb_ge; exact Hsat).
  cbn. exact IH.
Qed.

(** X16.  A segment that does not fit in what is left of the capacity: the
    copy-out loop fills the capacity up to its last byte with the start of
    the segment, stores the terminator in the last byte of the capacity
    (index [osize - 1]) and drops every later segment. *)
Theorem copy_segments_truncates (osize offset : Z) (buf : list ascii)
    (name : string) (rest : list string) :
  1 <= osize < 2 ^ 32 ->
  osize <= Z.of_nat (length buf) ->
  0 <= offset < osize - 1 ->
  osize - offset - 1 < strlen name ->
  exists buf' : list ascii,
    copy_segments osize offset buf (name :: rest) = Ret (osize - 1, buf')
    /\ length buf' = length buf
    /\ take (Z.to_nat (osize - 1)) buf'
       = (take (Z.to_nat offset) buf
          ++ take (Z.to_nat (osize - offset - 1)) (list_ascii_of_string name))%list
    /\ buf' !! Z.to_nat (osize - 1) = Some NUL
    /\ drop (Z.to_nat osize) buf' = drop (Z.to_nat osize) buf.
Proof.
  intros Hos Hbuf Hoff Hbig. cbn [copy_segments]. unfold copy_segment.
  rewrite (wrap32_small (osize - 1)) by lia.
  replace (offset <? osize - 1) with true by (symmetry; apply Z.ltb_lt; lia).
  rewrite (wrap32_small (osize - offset)) by lia.
  rewrite (wrap32_small (osize - offset - 1)) by lia.
  replace (osize - offset - 1 >=? strlen name) with false.
  2:{ symmetry. rewrite Z.geb_leb. apply Z.leb_gt. lia. }
  rewrite memcpy_ok by lia. cbn.
  set (mid := take (Z.to_nat (osize - offset - 1)) (list_ascii_of_string name)).
  assert (Hm : length mid = Z.to_nat (osize - offset - 1)).
  { apply length_take_le. rewrite chars_length. unfold strlen in Hbig. lia. }
  destruct (splice_facts buf mid (Z.to_nat offset)) as (Hl & Ht & Hd);
    [rewrite Hm; lia|].
  rewrite store_ok by (rewrite Hl; lia). cbn.
  rewrite copy_segments_saturated by (rewrite wrap32_small; lia).
  eexists. split; [reflexivity|].
  assert (Hidx : Z.to_nat (osize - 1) = (Z.to_nat offset + length mid)%nat)
    by (rewrite Hm; lia).
  split; [rewrite length_insert; exact Hl|].
  split; [|split].
  - rewrite take_insert_ge by lia. rewrite Hidx.
    rewrite (app_assoc (take (Z.to_nat offset) buf)).
    apply take_app_length'.
    rewrite length_app, length_take_le by lia. reflexivity.
  - apply list_lookup_insert_eq. rewrite Hl. lia.
  - rewrite drop_insert_lt by lia. apply Hd. rewrite Hm. lia.
Qed.

Lemma copy_segments_truncates_witness :
  exists buf' : list ascii,
    copy_segments 6 2 (xs 8) ["/local"; "/bin"] = Ret (6 - 1, buf')
    /\ length buf' = length (xs 8)
    /\ take (Z.to_nat (6 - 1)) buf'
       = (take (Z.to_nat 2) (xs 8)
          ++ take (Z.to_nat (6 - 2 - 1)) (list_ascii_of_string "/local"))%list
    /\ buf' !! Z.to_nat (6 - 1) = Some NUL
    /\ drop (Z.to_nat 6) buf' = drop (Z.to_nat 6) (xs 8).
Proof.
  apply (copy_segments_truncates 6 2 (xs 8) "/local" ["/bin"]);
    vm_compute;
    first [reflexivity | discriminate
          | split; first [reflexivity | discriminate]].
Defined.

(** X17.  With a start node that is not NULL, [dir_namev] returns -1 exactly
    on the pathnames whose first byte of the walk (index 1 after a leading
    separator, index 0 otherwise) is a separator, that is, on the pathnames
    that start with two separators. *)
Theorem dir_namev_failure_paths (K : kernel) (fuel : nat) (st : state)
    (pathname : string) (outs : namev_out) (base : option nat) (v : nat) :
  dir_namev_start K pathname base = Some v ->
  (exists (outs' : namev_out) (st' : state),
      dir_namev K (S fuel) st (Some pathname) outs base = Ret (-1, outs', st'))
  <-> (is_slash (char_at pathname 0) = true
       /\ is_slash (char_at pathname 1) = true).
Proof.
  intros Hstart. rewrite dir_namev_unfold, Hstart.
  unfold scan_step, start_index_of.
  destruct (is_slash (char_at pathname 0)) eqn:H0.
  - destruct (1 <? strlen pathname) eqn:Hlt.
    + destruct (is_slash (char_at pathname 1)) eqn:H1.
      * split; [auto | eauto].
      * split; [intros (o & s' & H); discriminate | intros [_ H]; discriminate].
    + split; [intros (o & s' & H); discriminate|].
      intros [_ H1]. apply Z.ltb_ge in Hlt.
      unfold char_at, strlen in *.
      destruct pathname as [|c [|c' s]]; cbn in H1; try discriminate.
      simpl String.length in Hlt. lia.
  - destruct (0 <? strlen pathname) eqn:Hlt.
    + replace (char_at pathname 0) with (char_at pathname 0) by reflexivity.
      rewrite H0.
      split; [intros (o & s' & H); discriminate | intros [H _]; discriminate].
    + split; [intros (o & s' & H); discriminate | intros [H _]; discriminate].
Qed.

Lemma dir_namev_failure_paths_witness :
  (exists (outs' : namev_out) (st' : state),
      dir_namev demo 1 st0 (Some "//bin/ls") out0 None = Ret (-1, outs', st'))
  <-> (is_slash (char_at "//bin/ls" 0) = true
       /\ is_slash (char_at "//bin/ls" 1) = true).
Proof.
  apply (dir_namev_failure_paths demo 0 st0 "//bin/ls" out0 None 2). reflexivity.
Defined.
